(** * Portail Vie Scolaire: the sync backend's state store

    A shallow embedding of [sync_server.py]: the process-wide [STORE]
    dictionary, its normalisation at load time, the write-to-temporary-
    then-rename persistence, and the three HTTP handlers that read or
    replace it.  Handlers run under the global [LOCK], so each one is an
    atomic step of a sequential machine whose state is the dictionary
    together with the two files the server touches. *)

From Stdlib Require Import ZArith String Ascii List Lia.
From Stdlib Require Import Floats.SpecFloat.
From stdpp Require Import gmap strings list fin_maps pretty.

#[local] Set Warnings "-register-all".
#[local] Open Scope string_scope.
#[local] Open Scope Z_scope.

(** ** Python values

    What [json.load] / [json.loads] produce: [None], booleans, integers,
    floats, strings, lists and string-keyed dictionaries.  Dictionaries are
    finite maps, so that equality of two dictionaries does not depend on
    the order of insertion, as in Python.  A float is the IEEE-754 datum it
    denotes.  A string is a sequence of characters; the model reads one
    character of [string] as one code point. *)

Inductive pyval : Type :=
  | PNone
  | PBool (b : bool)
  | PInt (z : Z)
  | PFloat (f : spec_float)
  | PStr (s : string)
  | PList (l : list pyval)
  | PDict (d : gmap string pyval).

(** The exceptions the modelled code can meet. *)
Inductive exn : Type :=
  | TypeError
  | ValueError
  | OverflowError
  | OSError.

Inductive result (A : Type) : Type :=
  | OK (a : A)
  | Raise (e : exn).

Arguments OK {A} a.
Arguments Raise {A} e.

(** ** The interpreter's built-ins

    Two built-ins are used by the server on values of any shape and are
    not defined by the repository: the textual form [str(v)] of a value
    that is not already a string, and the parsing [int(s)] of a string
    ([None] stands for [ValueError]).  They are taken as an interface.

    So is the one place where the text of a reply can fail:
    [json.dumps(payload, ensure_ascii=False).encode("utf-8")] raises
    [UnicodeEncodeError] when a string of the payload holds a lone
    surrogate, which a request body or the backing file can bring in by an
    escape.  [sendable payload] says that the payload encodes. *)

Class PyRuntime : Type := {
  py_repr : pyval -> string;
  int_of_str : string -> option Z;
  sendable : gmap string pyval -> bool
}.

(** [isinstance(v, dict)] *)
Definition is_dict (v : pyval) : bool :=
  match v with PDict _ => true | _ => false end.

Definition float_is_zero (f : spec_float) : bool :=
  match f with S754_zero _ => true | _ => false end.

(** Truth value of a Python object, as tested by [or] and [not]. *)
Definition truthy (v : pyval) : bool :=
  match v with
  | PNone => false
  | PBool b => b
  | PInt z => negb (z =? 0)
  | PFloat f => negb (float_is_zero f)
  | PStr s => negb (String.eqb s "")
  | PList l => match l with [] => false | _ :: _ => true end
  | PDict d => negb (bool_decide (d = ∅))
  end.

(** [a or b] *)
Definition py_or (a b : pyval) : pyval := if truthy a then a else b.

(** [int(f)] on a float truncates towards zero. *)
Definition float_trunc (f : spec_float) : result Z :=
  match f with
  | S754_zero _ => OK 0
  | S754_infinity _ => Raise OverflowError
  | S754_nan => Raise ValueError
  | S754_finite s m e =>
      let mag := if 0 <=? e then Z.pos m * 2 ^ e else Z.pos m / 2 ^ (- e) in
      OK (if s then - mag else mag)
  end.

Section Builtins.
Context `{R : PyRuntime}.

(** [str(v)] *)
Definition py_str (v : pyval) : string :=
  match v with
  | PStr s => s
  | _ => py_repr v
  end.

(** [int(v)] *)
Definition py_int (v : pyval) : result Z :=
  match v with
  | PNone => Raise TypeError
  | PBool b => OK (if b then 1 else 0)
  | PInt z => OK z
  | PFloat f => float_trunc f
  | PStr s =>
      match int_of_str s with
      | Some z => OK z
      | None => Raise ValueError
      end
  | PList _ => Raise TypeError
  | PDict _ => Raise TypeError
  end.
End Builtins.

(** [d.get(k, dflt)] *)
Definition dict_get (d : gmap string pyval) (k : string) (dflt : pyval) : pyval :=
  default dflt (d !! k).

(** [s[:n]] on a string. *)
Definition str_prefix (n : nat) (s : string) : string := String.substring 0 n s.

(** ** The store

    [_default_store()] and [_normalize_store(raw)].  Both may read the
    clock through [iso_now()], at most once per call: the reading is the
    argument [now]. *)

Definition _default_store (now : string) : gmap string pyval :=
  <["rev" := PInt 0]>
    (<["updated_at" := PStr now]>
       (<["state" := PDict ∅]>
          (<["history" := PList []]> ∅))).

Section Store.
Context `{R : PyRuntime}.

Definition _normalize_store (raw : pyval) (now : string)
  : result (gmap string pyval) :=
  match raw with
  | PDict raw =>
      match py_int (py_or (dict_get raw "rev" (PInt 0)) (PInt 0)) with
      | Raise e => Raise e
      | OK rev =>
          let updated_at :=
            py_or (PStr (py_str (dict_get raw "updated_at" (PStr ""))))
                  (PStr now) in
          let state := dict_get raw "state" (PDict ∅) in
          let state := if is_dict state then state else PDict ∅ in
          let history := dict_get raw "history" (PList []) in
          let history :=
            match history with PList h => h | _ => [] end in
          OK (<["rev" := PInt rev]>
                (<["updated_at" := updated_at]>
                   (<["state" := state]>
                      (<["history" := PList (take 200 history)]> ∅))))
      end
  | _ => OK (_default_store now)
  end.
End Store.

(** ** The backing file

    A file is known by what [json.load] makes of it: a decoded value, or
    [Garbage] when reading or decoding it raises.  [json.dump] followed by
    [json.load] gives back the value dumped.  The server touches two
    paths, [STORE_PATH] and [STORE_PATH + ".tmp"]. *)

Inductive file : Type :=
  | Garbage
  | Json (v : pyval).

Record fs : Type := {
  store_file : option file;
  tmp_file : option file
}.

(** Where a write may fail: opening the temporary file, while dumping
    into it (the exception is that of the failing layer), or in
    [os.replace]. *)
Inductive io_fault : Type :=
  | NoFault
  | OpenFails
  | DumpFails (e : exn)
  | ReplaceFails.

Definition _write_store (store : gmap string pyval) (io : io_fault) (d : fs)
  : fs * result unit :=
  match io with
  | OpenFails => (d, Raise OSError)
  | DumpFails e =>
      ({| store_file := store_file d; tmp_file := Some Garbage |}, Raise e)
  | ReplaceFails =>
      ({| store_file := store_file d; tmp_file := Some (Json (PDict store)) |},
       Raise OSError)
  | NoFault =>
      ({| store_file := Some (Json (PDict store)); tmp_file := None |}, OK tt)
  end.

Section Load.
Context `{R : PyRuntime}.

Definition _read_store (d : fs) (now : string) : gmap string pyval :=
  match store_file d with
  | None => _default_store now
  | Some Garbage => _default_store now
  | Some (Json raw) =>
      match _normalize_store raw now with
      | OK s => s
      | Raise _ => _default_store now
      end
  end.
End Load.

(** ** The handlers *)

(** A request as the handler sees it: the path component of the URL, the
    [Content-Length] header when present, and what [json.loads] returns on
    the bytes read from the body ([None] when decoding raises). *)
Record request : Type := {
  req_path : string;
  req_content_length : option string;
  req_json : option pyval
}.

(** What a handler does to its client: one [_send_json(status, payload)],
    or an exception that leaves the handler before any response.  A
    failure of the socket inside [_send_json] changes nothing of the store
    and is left out. *)
Inductive outcome : Type :=
  | Responded (status : Z) (payload : gmap string pyval)
  | Raised (e : exn).

(** The process state: the module-level [STORE] and the files. *)
Record server : Type := {
  STORE : gmap string pyval;
  disk : fs
}.

Definition not_found : gmap string pyval :=
  <["ok" := PBool false]> (<["error" := PStr "Not found"]> ∅).

Definition invalid_payload : gmap string pyval :=
  <["ok" := PBool false]>
    (<["error" := PStr "Invalid payload: expected object with 'state'"]> ∅).

Definition do_OPTIONS : outcome :=
  Responded 200 (<["ok" := PBool true]> ∅).

Section Get.
Context `{R : PyRuntime}.

(** [_send_json(status, payload)] encodes the payload before it sends
    anything, and [UnicodeEncodeError], a [ValueError], leaves the handler
    when the payload does not encode.  Replies made of constants, integers
    and clock readings alone are ASCII text: the handlers' replies of that
    kind are written [Responded]. *)
Definition _send_json (status : Z) (payload : gmap string pyval) : outcome :=
  if sendable payload then Responded status payload else Raised ValueError.

Definition do_GET (path : string) (st : server) : outcome :=
  let S := STORE st in
  if String.eqb path "/api/ping" then
    _send_json 200
      (<["ok" := PBool true]>
         (<["rev" := dict_get S "rev" (PInt 0)]>
            (<["updated_at" := dict_get S "updated_at" (PStr "")]> ∅)))
  else if String.eqb path "/api/state" then
    _send_json 200
      (<["ok" := PBool true]>
         (<["rev" := dict_get S "rev" (PInt 0)]>
            (<["updated_at" := dict_get S "updated_at" (PStr "")]>
               (<["state" := dict_get S "state" (PDict ∅)]> ∅))))
  else if String.eqb path "/api/history" then
    _send_json 200
      (<["ok" := PBool true]>
         (<["history" := dict_get S "history" (PList [])]> ∅))
  else Responded 404 not_found.
End Get.

Section Post.
Context `{R : PyRuntime}.

Definition _read_json (req : request) : option (gmap string pyval) :=
  match int_of_str (default "0" (req_content_length req)) with
  | None => None
  | Some size =>
      if (size <=? 0) || (25000000 <? size) then None
      else
        match req_json req with
        | Some (PDict data) => Some data
        | _ => None
        end
  end.

(** The entry [{"rev": ..., "at": ..., "client": ..., "source": ...}]. *)
Definition history_entry (rev : pyval) (now client source : string)
  : pyval :=
  PDict (<["rev" := rev]>
           (<["at" := PStr now]>
              (<["client" := PStr client]>
                 (<["source" := PStr source]> ∅)))).

(** The body of [with LOCK:] in [do_POST], for a validated payload. *)
Definition upsert (state : pyval) (client source now : string)
    (io : io_fault) (st : server) : server * outcome :=
  let S := <["state" := state]> (STORE st) in
  match py_int (dict_get S "rev" (PInt 0)) with
  | Raise e => ({| STORE := S; disk := disk st |}, Raised e)
  | OK n =>
      let S := <["rev" := PInt (n + 1)]> S in
      let S := <["updated_at" := PStr now]> S in
      (* hist = STORE.setdefault("history", []) *)
      let S :=
        match S !! "history" with
        | Some _ => S
        | None => <["history" := PList []]> S
        end in
      let hist :=
        match S !! "history" with
        | Some (PList h) => h
        | _ => []
        end in
      (* STORE["rev"] was stored above, the lookup finds it *)
      let hist :=
        history_entry (dict_get S "rev" PNone) now client source :: hist in
      let hist :=
        if (200 <? Z.of_nat (length hist)) then take 200 hist else hist in
      let S := <["history" := PList hist]> S in
      match _write_store S io (disk st) with
      | (d, Raise e) => ({| STORE := S; disk := d |}, Raised e)
      | (d, OK _) =>
          ({| STORE := S; disk := d |},
           Responded 200
             (<["ok" := PBool true]>
                (<["rev" := dict_get S "rev" PNone]>
                   (<["updated_at" := dict_get S "updated_at" PNone]> ∅))))
      end
  end.

Definition do_POST (req : request) (now : string) (io : io_fault)
    (st : server) : server * outcome :=
  if negb (String.eqb (req_path req) "/api/state") then
    (st, Responded 404 not_found)
  else
    match _read_json req with
    | None => (st, Responded 400 invalid_payload)
    | Some data =>
        if bool_decide (data = ∅)
           || negb (is_dict (dict_get data "state" PNone))
        then (st, Responded 400 invalid_payload)
        else
          let client :=
            str_prefix 120 (py_str (dict_get data "client" (PStr "ANON"))) in
          let source :=
            str_prefix 120 (py_str (dict_get data "source" (PStr ""))) in
          upsert (dict_get data "state" PNone) client source now io st
    end.

(** ** The server as a machine

    One event per request served; the clock reading and the fate of the
    write are part of the event.  The process starts by loading the
    store. *)

Inductive event : Type :=
  | GET (path : string)
  | POST (req : request) (now : string) (io : io_fault)
  | OPTIONS.

Definition step (st : server) (ev : event) : server * outcome :=
  match ev with
  | GET path => (st, do_GET path st)
  | POST req now io => do_POST req now io st
  | OPTIONS => (st, do_OPTIONS)
  end.

Definition run (st : server) (evs : list event) : server :=
  fold_left (fun s ev => fst (step s ev)) evs st.

Definition boot (d : fs) (now : string) : server :=
  {| STORE := _read_store d now; disk := d |}.

(** The port [main] listens on: 8765, replaced by [sys.argv[1]] when
    there is one and [int] reads it, replaced in turn by the environment's
    [PVS_SYNC_PORT] when it is set, not empty, and [int] reads it.  A
    [ValueError] of either conversion is passed over. *)
Definition main_port (argv : list string) (env_port : option string) : Z :=
  let port := 8765 in
  let port :=
    match argv with
    | _ :: a :: _ =>
        match int_of_str a with
        | Some p => p
        | None => port
        end
    | _ => port
    end in
  match env_port with
  | Some e =>
      if String.eqb e "" then port
      else
        match int_of_str e with
        | Some p => p
        | None => port
        end
  | None => port
  end.
End Post.

(** ** A reference runtime

    One implementation of the interface, used to run the model on concrete
    requests: [int] on a string strips blanks, reads an optional sign and
    decimal digits that single underscores may separate; [str] is exact on
    [None], booleans and integers and gives containers and floats by their
    type's name.  Its strings are made of the code points below 256, none
    of which is a surrogate: every payload encodes. *)

Module Reference.

Definition is_blank (c : ascii) : bool :=
  let n := nat_of_ascii c in
  ((9 <=? n) && (n <=? 13) || (28 <=? n) && (n <=? 32)
   || (n =? 133) || (n =? 160))%nat.

Definition digit (c : ascii) : option Z :=
  let n := nat_of_ascii c in
  if ((48 <=? n) && (n <=? 57))%nat then Some (Z.of_nat n - 48) else None.

Fixpoint lstrip (s : list ascii) : list ascii :=
  match s with
  | c :: s' => if is_blank c then lstrip s' else s
  | [] => []
  end.

Definition strip (s : list ascii) : list ascii :=
  rev (lstrip (rev (lstrip s))).

(** Digits after the first one; [acc] is the value read so far. *)
Fixpoint more_digits (acc : Z) (s : list ascii) : option Z :=
  match s with
  | [] => Some acc
  | c :: s' =>
      if Ascii.eqb c "_" then
        match s' with
        | d :: s'' =>
            match digit d with
            | Some v => more_digits (acc * 10 + v) s''
            | None => None
            end
        | [] => None
        end
      else
        match digit c with
        | Some v => more_digits (acc * 10 + v) s'
        | None => None
        end
  end.

Definition unsigned (s : list ascii) : option Z :=
  match s with
  | d :: s' =>
      match digit d with
      | Some v => more_digits v s'
      | None => None
      end
  | [] => None
  end.

Definition int_of_str (s : string) : option Z :=
  match strip (list_ascii_of_string s) with
  | c :: s' =>
      if Ascii.eqb c "-" then Z.opp <$> unsigned s'
      else if Ascii.eqb c "+" then unsigned s'
      else unsigned (c :: s')
  | [] => None
  end.

Definition py_repr (v : pyval) : string :=
  match v with
  | PNone => "None"
  | PBool true => "True"
  | PBool false => "False"
  | PInt z => pretty z
  | PFloat _ => "<float>"
  | PStr s => s
  | PList _ => "<list>"
  | PDict _ => "<dict>"
  end.

Definition runtime : PyRuntime :=
  Build_PyRuntime py_repr int_of_str (fun _ => true).

End Reference.

(** ** Vocabulary of the properties *)

(** The dictionary built on the last line of [_normalize_store] and by
    [_default_store]: the four fields of a snapshot. *)
Definition snapshot (rev : Z) (updated_at : string)
    (state : gmap string pyval) (history : list pyval) : gmap string pyval :=
  <["rev" := PInt rev]>
    (<["updated_at" := PStr updated_at]>
       (<["state" := PDict state]>
          (<["history" := PList history]> ∅))).

Definition canonical_fields : gset string :=
  {[ "rev"; "updated_at"; "state"; "history" ]}.

(** A well-formed snapshot: integer revision, non-empty timestamp,
    mapping document, at most 200 history entries, nothing else. *)
Definition well_formed (S : gmap string pyval) : Prop :=
  ∃ n u doc h,
    S = snapshot n u doc h ∧ u ≠ "" ∧ (length h ≤ 200)%nat.

(** The history list of a store ([[]] when the field is not a list). *)
Definition history_of (S : gmap string pyval) : list pyval :=
  match S !! "history" with
  | Some (PList h) => h
  | _ => []
  end.

Definition hist_bounded (S : gmap string pyval) : Prop :=
  ∃ h, S !! "history" = Some (PList h) ∧ (length h ≤ 200)%nat.

Definition rev_is_int (S : gmap string pyval) : Prop :=
  ∃ n, S !! "rev" = Some (PInt n).

(** [history[0]["rev"] == rev] whenever the history is not empty. *)
Definition head_matches (S : gmap string pyval) : Prop :=
  match history_of S with
  | [] => True
  | PDict e :: _ => is_Some (S !! "rev") ∧ e !! "rev" = S !! "rev"
  | _ :: _ => False
  end.

Section Vocabulary.
Context `{R : PyRuntime}.

(** The timestamp, document and history [_normalize_store] keeps. *)
Definition kept_updated_at (d : gmap string pyval) (now : string) : string :=
  let s := py_str (dict_get d "updated_at" (PStr "")) in
  if String.eqb s "" then now else s.

Definition kept_state (d : gmap string pyval) : gmap string pyval :=
  match dict_get d "state" (PDict ∅) with PDict m => m | _ => ∅ end.

Definition kept_history (d : gmap string pyval) : list pyval :=
  take 200 (match dict_get d "history" (PList []) with
            | PList h => h
            | _ => []
            end).

(** The value [_normalize_store] passes to [int()] as the revision. *)
Definition stored_rev (raw : pyval) : pyval :=
  match raw with
  | PDict m => py_or (dict_get m "rev" (PInt 0)) (PInt 0)
  | _ => PInt 0
  end.

(** What [do_POST] makes of the optional [client] and [source]. *)
Definition client_of (data : gmap string pyval) : string :=
  str_prefix 120 (py_str (dict_get data "client" (PStr "ANON"))).

Definition source_of (data : gmap string pyval) : string :=
  str_prefix 120 (py_str (dict_get data "source" (PStr ""))).

(** The store an upsert leaves when the revision it found was [n], and
    the reply it sends once the store is written. *)
Definition upserted (S : gmap string pyval) (n : Z) (state : pyval)
    (client source now : string) : gmap string pyval :=
  <["history" :=
      PList (take 200 (history_entry (PInt (n + 1)) now client source
                       :: history_of S))]>
    (<["updated_at" := PStr now]>
       (<["rev" := PInt (n + 1)]>
          (<["state" := state]> S))).

Definition upsert_reply (n : Z) (now : string) : gmap string pyval :=
  <["ok" := PBool true]>
    (<["rev" := PInt (n + 1)]>
       (<["updated_at" := PStr now]> ∅)).

(** The guard of [do_POST]: the request reaches the locked section. *)
Definition accepted (req : request) : bool :=
  String.eqb (req_path req) "/api/state"
  && match _read_json req with
     | Some data =>
         negb (bool_decide (data = ∅))
         && is_dict (dict_get data "state" PNone)
     | None => false
     end.

Definition is_upsert (ev : event) : bool :=
  match ev with
  | POST req _ _ => accepted req
  | _ => false
  end.

(** The number of upserts among the events. *)
Definition upserts (evs : list event) : nat :=
  length (filter (fun ev => is_upsert ev = true) evs).

(** No write of the event fails. *)
Definition persists (ev : event) : Prop :=
  match ev with
  | POST _ _ io => io = NoFault
  | _ => True
  end.

(** The event is an upsert that was answered with success. *)
Definition acked (ev : event) (o : outcome) : bool :=
  match ev, o with
  | POST _ _ _, Responded status _ => status =? 200
  | _, _ => false
  end.

(** The number of upserts answered with success along a run. *)
Fixpoint acknowledged (st : server) (evs : list event) : nat :=
  match evs with
  | [] => 0%nat
  | ev :: evs' =>
      ((if acked ev (snd (step st ev)) then 1 else 0)
       + acknowledged (fst (step st ev)) evs')%nat
  end.

(** The clock reading of the event is not the empty string. *)
Definition clock_ok (ev : event) : Prop :=
  match ev with
  | POST _ now _ => now ≠ ""
  | _ => True
  end.
End Vocabulary.

(** [e[k]] for a history entry [e] (nothing when [e] is not a mapping). *)
Definition entry_field (k : string) (e : pyval) : option pyval :=
  match e with
  | PDict d => d !! k
  | _ => None
  end.

(** The entries carry the revisions [n], [n - 1], [n - 2], ... in order. *)
Fixpoint descending (n : Z) (h : list pyval) : Prop :=
  match h with
  | [] => True
  | e :: t => entry_field "rev" e = Some (PInt n) ∧ descending (n - 1) t
  end.

(** The newest history entry is stamped with the store's [updated_at]. *)
Definition head_stamped (S : gmap string pyval) : Prop :=
  match history_of S with
  | [] => True
  | e :: _ => entry_field "at" e = S !! "updated_at"
  end.

(** The store file is the file [f0], or a dictionary whose revision is at
    most the one in memory. *)
Definition disk_behind (f0 : option file) (st : server) : Prop :=
  store_file (disk st) = f0
  ∨ ∃ S n m,
      store_file (disk st) = Some (Json (PDict S))
      ∧ S !! "rev" = Some (PInt n)
      ∧ STORE st !! "rev" = Some (PInt m)
      ∧ n ≤ m.

(** What [GET /api/state] answers for a store at revision [rev]. *)
Definition state_reply (rev : Z) (updated_at : string)
    (doc : gmap string pyval) : gmap string pyval :=
  <["ok" := PBool true]>
    (<["rev" := PInt rev]>
       (<["updated_at" := PStr updated_at]>
          (<["state" := PDict doc]> ∅))).

(** ** Sample data *)

Module Sample.

Definition empty_disk : fs := {| store_file := None; tmp_file := None |}.

(** A server started without a backing file at time [t0]. *)
Definition fresh : server :=
  {| STORE := _default_store "t0"; disk := empty_disk |}.

(** [POST /api/state] with body [{"state": {"a": 1}, "client": "X"}]. *)
Definition doc_a1 : gmap string pyval := <["a" := PInt 1]> ∅.

Definition data_a1 : gmap string pyval :=
  <["state" := PDict doc_a1]> (<["client" := PStr "X"]> ∅).

Definition post_a1 : request :=
  {| req_path := "/api/state";
     req_content_length := Some "34";
     req_json := Some (PDict data_a1) |}.

(** [POST /api/state] with body [{"state": [1]}]. *)
Definition data_list_state : gmap string pyval :=
  <["state" := PList [PInt 1]]> ∅.

Definition post_list_state : request :=
  {| req_path := "/api/state";
     req_content_length := Some "14";
     req_json := Some (PDict data_list_state) |}.

(** [POST /api/state] with body [[1, 2]]. *)
Definition post_array : request :=
  {| req_path := "/api/state";
     req_content_length := Some "6";
     req_json := Some (PList [PInt 1; PInt 2]) |}.

(** A backing file holding [{"rev": 5, "history": [{"rev": 3}]}]. *)
Definition stale_disk : fs :=
  {| store_file :=
       Some (Json (PDict (<["rev" := PInt 5]>
                            (<["history" :=
                                 PList [PDict (<["rev" := PInt 3]> ∅)]]> ∅))));
     tmp_file := None |}.

(** File contents [{"rev": 7, "extra": true}], [{"rev": "abc"}] and
    [{"rev": [1]}]. *)
Definition extra_field : pyval :=
  PDict (<["rev" := PInt 7]> (<["extra" := PBool true]> ∅)).

Definition rev_abc : pyval := PDict (<["rev" := PStr "abc"]> ∅).

Definition rev_list : pyval := PDict (<["rev" := PList [PInt 1]]> ∅).

(** The same upsert announced with 25000001 bytes. *)
Definition post_huge : request :=
  {| req_path := "/api/state";
     req_content_length := Some "25000001";
     req_json := Some (PDict data_a1) |}.

(** Two upserts, the first of which is not written. *)
Definition rough_session : list event :=
  [POST post_a1 "t1" ReplaceFails; GET "/api/state";
   POST post_a1 "t2" NoFault].

(** Three requests served without a failing write. *)
Definition session : list event :=
  [POST post_a1 "t1" NoFault; GET "/api/ping"; POST post_a1 "t2" NoFault].

End Sample.

(** ** Normalisation and loading *)

Section NormalizeFacts.
Context `{R : PyRuntime}.

Lemma default_store_snapshot now : _default_store now = snapshot 0 now ∅ [].
Proof. reflexivity. Qed.

Lemma dom_snapshot n u doc h : dom (snapshot n u doc h) = canonical_fields.
Proof.
  unfold snapshot, canonical_fields.
  rewrite !dom_insert_L, dom_empty_L. set_solver.
Qed.

Lemma py_or_str s now :
  py_or (PStr s) (PStr now) = PStr (if String.eqb s "" then now else s).
Proof. unfold py_or; simpl. by destruct (String.eqb s ""). Qed.

Lemma normalize_dict d now :
  _normalize_store (PDict d) now =
  match py_int (py_or (dict_get d "rev" (PInt 0)) (PInt 0)) with
  | OK n => OK (snapshot n (kept_updated_at d now) (kept_state d) (kept_history d))
  | Raise e => Raise e
  end.
Proof.
  unfold _normalize_store.
  destruct (py_int _) as [n|e]; [|done].
  rewrite py_or_str. unfold snapshot, kept_state, kept_updated_at, kept_history.
  by destruct (dict_get d "state" (PDict ∅)).
Qed.

Lemma normalize_other raw now :
  is_dict raw = false → _normalize_store raw now = OK (_default_store now).
Proof. by destruct raw. Qed.

Lemma kept_updated_at_nonempty d now : now ≠ "" → kept_updated_at d now ≠ "".
Proof.
  intros Hnow. unfold kept_updated_at.
  destruct (String.eqb _ "") eqn:E; [done|].
  by apply String.eqb_neq in E.
Qed.

Lemma kept_history_length d : (length (kept_history d) ≤ 200)%nat.
Proof. unfold kept_history. rewrite length_take. lia. Qed.

Lemma normalize_well_formed raw now s :
  now ≠ "" → _normalize_store raw now = OK s → well_formed s.
Proof.
  intros Hnow H. destruct (is_dict raw) eqn:Hd.
  - destruct raw; try done. rewrite normalize_dict in H.
    destruct (py_int _) as [n|e]; [|done]. injection H as <-.
    exists n, (kept_updated_at d now), (kept_state d), (kept_history d).
    eauto using kept_updated_at_nonempty, kept_history_length.
  - rewrite normalize_other in H by done. injection H as <-.
    exists 0, now, ∅, []. repeat split; [done | simpl; lia].
Qed.

Lemma default_well_formed now : now ≠ "" → well_formed (_default_store now).
Proof.
  intros Hnow. exists 0, now, ∅, []. repeat split; [done | simpl; lia].
Qed.

Lemma read_store_cases d now :
  _read_store d now = _default_store now
  ∨ ∃ raw, store_file d = Some (Json raw)
           ∧ _normalize_store raw now = OK (_read_store d now).
Proof.
  unfold _read_store. destruct (store_file d) as [[|raw]|]; auto.
  destruct (_normalize_store raw now) eqn:E; eauto.
Qed.

Lemma read_store_well_formed d now :
  now ≠ "" → well_formed (_read_store d now).
Proof.
  intros Hnow. destruct (read_store_cases d now) as [->|(raw & _ & H)].
  - by apply default_well_formed.
  - by eapply normalize_well_formed.
Qed.

Lemma read_store_dom d now : dom (_read_store d now) = canonical_fields.
Proof.
  destruct (read_store_cases d now) as [->|(raw & _ & H)].
  - rewrite default_store_snapshot. apply dom_snapshot.
  - destruct (is_dict raw) eqn:Hd.
    + destruct raw; try done. rewrite normalize_dict in H.
      destruct (py_int _); [|done]. injection H as <-. apply dom_snapshot.
    + rewrite normalize_other in H by done. injection H as <-.
      rewrite default_store_snapshot. apply dom_snapshot.
Qed.
End NormalizeFacts.

(** ** The write path *)

Section UpsertFacts.
Context `{R : PyRuntime}.

Lemma cap_take (h : list pyval) :
  (if 200 <? Z.of_nat (length h) then take 200 h else h) = take 200 h.
Proof.
  destruct (200 <? Z.of_nat (length h)) eqn:E; [done|].
  apply Z.ltb_ge in E. symmetry. apply take_ge. lia.
Qed.

Lemma write_store_fault S io d :
  io ≠ NoFault →
  ∃ d' e, _write_store S io d = (d', Raise e)
          ∧ store_file d' = store_file d.
Proof. destruct io; [done| | |]; intros _; simpl; eauto. Qed.

Lemma upsert_raise state client source now io st e :
  py_int (dict_get (STORE st) "rev" (PInt 0)) = Raise e →
  upsert state client source now io st =
  ({| STORE := <["state" := state]> (STORE st); disk := disk st |}, Raised e).
Proof.
  intros H. unfold upsert, dict_get in *.
  rewrite lookup_insert_ne by done. by rewrite H.
Qed.

Lemma upsert_ok state client source now io st n :
  py_int (dict_get (STORE st) "rev" (PInt 0)) = OK n →
  upsert state client source now io st =
  let S := upserted (STORE st) n state client source now in
  match _write_store S io (disk st) with
  | (d, Raise e) => ({| STORE := S; disk := d |}, Raised e)
  | (d, OK _) => ({| STORE := S; disk := d |}, Responded 200 (upsert_reply n now))
  end.
Proof.
  intros H. unfold upsert, dict_get in *.
  rewrite lookup_insert_ne by done. rewrite H.
  rewrite !(lookup_insert_ne _ _ "history") by done.
  unfold upserted, upsert_reply, history_of.
  destruct (STORE st !! "history") as [v|] eqn:Hh.
  - rewrite !(lookup_insert_ne _ _ "history") by done. rewrite Hh.
    rewrite cap_take.
    rewrite (lookup_insert_ne _ "updated_at" "rev") by done.
    rewrite lookup_insert_eq. simpl.
    rewrite (lookup_insert_ne _ "history" "rev") by done.
    rewrite (lookup_insert_ne _ "updated_at" "rev") by done.
    rewrite lookup_insert_eq.
    rewrite (lookup_insert_ne _ "history" "updated_at") by done.
    rewrite lookup_insert_eq. simpl.
    by destruct v.
  - rewrite lookup_insert_eq. rewrite cap_take. rewrite insert_insert_eq.
    rewrite (lookup_insert_ne _ "history" "rev") by done.
    rewrite (lookup_insert_ne _ "updated_at" "rev") by done.
    rewrite lookup_insert_eq. simpl.
    rewrite (lookup_insert_ne _ "history" "rev") by done.
    rewrite (lookup_insert_ne _ "updated_at" "rev") by done.
    rewrite lookup_insert_eq.
    rewrite (lookup_insert_ne _ "history" "updated_at") by done.
    rewrite lookup_insert_eq. by simpl.
Qed.

Lemma do_POST_unfold req now io st :
  do_POST req now io st =
  if negb (String.eqb (req_path req) "/api/state") then
    (st, Responded 404 not_found)
  else if accepted req then
    match _read_json req with
    | Some data =>
        upsert (dict_get data "state" PNone) (client_of data) (source_of data)
               now io st
    | None => (st, Responded 400 invalid_payload)
    end
  else (st, Responded 400 invalid_payload).
Proof.
  unfold do_POST, accepted.
  destruct (String.eqb (req_path req) "/api/state"); simpl; [|done].
  destruct (_read_json req) as [data|]; [|done].
  destruct (bool_decide (data = ∅)); simpl; [done|].
  by destruct (is_dict (dict_get data "state" PNone)).
Qed.

Lemma do_POST_rejected req now io st :
  accepted req = false →
  ∃ code p, do_POST req now io st = (st, Responded code p) ∧ code ≠ 200.
Proof.
  intros H. rewrite do_POST_unfold, H.
  destruct (negb _); eauto.
Qed.

Lemma do_POST_accepted req now io st :
  accepted req = true →
  ∃ data doc,
    _read_json req = Some data ∧ data !! "state" = Some (PDict doc)
    ∧ do_POST req now io st =
      upsert (PDict doc) (client_of data) (source_of data) now io st.
Proof.
  intros H. rewrite do_POST_unfold, H. unfold accepted in H.
  destruct (String.eqb (req_path req) "/api/state"); simpl in *; [|done].
  destruct (_read_json req) as [data|]; [|done].
  apply andb_true_iff in H as [_ H]. unfold dict_get in *.
  destruct (data !! "state") as [[]|] eqn:E; try done.
  eauto.
Qed.

Lemma accepted_intro req data doc :
  req_path req = "/api/state" →
  _read_json req = Some data →
  data !! "state" = Some (PDict doc) →
  accepted req = true.
Proof.
  intros Hp Hj Hs. unfold accepted. rewrite Hp, Hj. unfold dict_get.
  rewrite Hs. simpl. rewrite bool_decide_eq_false_2; [done|].
  intros ->. by rewrite lookup_empty in Hs.
Qed.
End UpsertFacts.

(** ** Invariants of the machine *)

Section Invariants.
Context `{R : PyRuntime}.

Lemma upserted_rev S n state client source now :
  upserted S n state client source now !! "rev" = Some (PInt (n + 1)).
Proof. unfold upserted. by simplify_map_eq. Qed.

Lemma upserted_state S n state client source now :
  upserted S n state client source now !! "state" = Some state.
Proof. unfold upserted. by simplify_map_eq. Qed.

Lemma upserted_updated_at S n state client source now :
  upserted S n state client source now !! "updated_at" = Some (PStr now).
Proof. unfold upserted. by simplify_map_eq. Qed.

Lemma upserted_history S n state client source now :
  history_of (upserted S n state client source now) =
  take 200 (history_entry (PInt (n + 1)) now client source :: history_of S).
Proof. unfold history_of at 1, upserted. by simplify_map_eq. Qed.

Lemma upserted_dom S n state client source now :
  dom S = canonical_fields →
  dom (upserted S n state client source now) = canonical_fields.
Proof.
  intros H. unfold upserted. rewrite !dom_insert_L, H.
  unfold canonical_fields. set_solver.
Qed.

Lemma py_int_rev S n :
  S !! "rev" = Some (PInt n) → py_int (dict_get S "rev" (PInt 0)) = OK n.
Proof. intros H. unfold dict_get. by rewrite H. Qed.

(** What an upsert leaves in memory, whatever becomes of the write. *)
Lemma upsert_store state client source now io st n :
  STORE st !! "rev" = Some (PInt n) →
  STORE (fst (upsert state client source now io st)) =
  upserted (STORE st) n state client source now.
Proof.
  intros H. rewrite (upsert_ok _ _ _ _ _ _ n) by by apply py_int_rev.
  simpl. by destruct (_write_store _ io (disk st)) as [d [[]|e]].
Qed.

Lemma upsert_history_untouched state client source now io st e :
  py_int (dict_get (STORE st) "rev" (PInt 0)) = Raise e →
  let S' := STORE (fst (upsert state client source now io st)) in
  S' !! "history" = STORE st !! "history" ∧ S' !! "rev" = STORE st !! "rev".
Proof.
  intros H. rewrite (upsert_raise _ _ _ _ _ _ e) by done. simpl.
  by rewrite !lookup_insert_ne.
Qed.

Lemma head_matches_upserted S n state client source now :
  head_matches (upserted S n state client source now).
Proof.
  unfold head_matches. rewrite upserted_history, upserted_rev. simpl.
  split; [eauto|]. by simplify_map_eq.
Qed.

Lemma head_matches_ext S S' :
  S' !! "history" = S !! "history" → S' !! "rev" = S !! "rev" →
  head_matches S → head_matches S'.
Proof.
  unfold head_matches, history_of. by intros -> ->.
Qed.

Lemma hist_bounded_upserted S n state client source now :
  hist_bounded (upserted S n state client source now).
Proof.
  eexists. split.
  - unfold upserted. apply lookup_insert_eq.
  - rewrite length_take. lia.
Qed.

Lemma step_not_upsert st ev : is_upsert ev = false → fst (step st ev) = st.
Proof.
  destruct ev as [path|req now io|]; simpl; [done| |done].
  intros H. by destruct (do_POST_rejected req now io st H) as (c & p & -> & _).
Qed.

Lemma step_upsert st ev n :
  is_upsert ev = true → STORE st !! "rev" = Some (PInt n) →
  ∃ req now io data doc,
    ev = POST req now io ∧ _read_json req = Some data
    ∧ data !! "state" = Some (PDict doc)
    ∧ STORE (fst (step st ev)) =
      upserted (STORE st) n (PDict doc) (client_of data) (source_of data) now.
Proof.
  destruct ev as [path|req now io|]; simpl; [done| |done].
  intros H Hrev.
  destruct (do_POST_accepted req now io st H) as (data & doc & Hj & Hs & ->).
  exists req, now, io, data, doc. repeat split; try done.
  by apply upsert_store.
Qed.

Lemma step_rev st ev n :
  STORE st !! "rev" = Some (PInt n) →
  STORE (fst (step st ev)) !! "rev" =
  Some (PInt (n + if is_upsert ev then 1 else 0)).
Proof.
  intros Hrev. destruct (is_upsert ev) eqn:E.
  - destruct (step_upsert st ev n E Hrev) as (?&?&?&?&?&_&_&_&->).
    apply upserted_rev.
  - rewrite step_not_upsert by done. by rewrite Z.add_0_r.
Qed.

Lemma step_hist_bounded st ev :
  rev_is_int (STORE st) → hist_bounded (STORE st) →
  hist_bounded (STORE (fst (step st ev))).
Proof.
  intros [n Hrev] Hb. destruct (is_upsert ev) eqn:E.
  - destruct (step_upsert st ev n E Hrev) as (?&?&?&?&?&_&_&_&->).
    apply hist_bounded_upserted.
  - by rewrite step_not_upsert.
Qed.

Lemma step_head_matches st ev :
  head_matches (STORE st) → head_matches (STORE (fst (step st ev))).
Proof.
  intros Hm. destruct (is_upsert ev) eqn:E; [|by rewrite step_not_upsert].
  destruct ev as [path|req now io|]; simpl in *; [done| |done].
  destruct (do_POST_accepted req now io st E) as (data & doc & _ & _ & ->).
  destruct (py_int (dict_get (STORE st) "rev" (PInt 0))) as [n|e] eqn:Hi.
  - rewrite (upsert_ok _ _ _ _ _ _ n) by done. simpl.
    destruct (_write_store _ io (disk st)) as [d [[]|e]]; simpl;
      apply head_matches_upserted.
  - destruct (upsert_history_untouched (PDict doc) (client_of data)
                (source_of data) now io st e Hi) as [Hh Hr].
    by eapply head_matches_ext.
Qed.

Lemma run_cons st ev evs : run st (ev :: evs) = run (fst (step st ev)) evs.
Proof. reflexivity. Qed.

Lemma upserts_cons ev evs :
  upserts (ev :: evs) = ((if is_upsert ev then 1 else 0) + upserts evs)%nat.
Proof.
  unfold upserts. destruct (is_upsert ev) eqn:E.
  - by rewrite filter_cons_True.
  - rewrite filter_cons_False; [done|]. by rewrite E.
Qed.

Lemma run_rev evs : ∀ st n,
  STORE st !! "rev" = Some (PInt n) →
  STORE (run st evs) !! "rev" = Some (PInt (n + Z.of_nat (upserts evs))).
Proof.
  induction evs as [|ev evs IH]; intros st n Hrev.
  - simpl. by rewrite Z.add_0_r.
  - rewrite run_cons, upserts_cons.
    rewrite (IH _ _ (step_rev st ev n Hrev)).
    do 2 f_equal. destruct (is_upsert ev); lia.
Qed.

Lemma run_hist_bounded evs : ∀ st,
  rev_is_int (STORE st) → hist_bounded (STORE st) →
  rev_is_int (STORE (run st evs)) ∧ hist_bounded (STORE (run st evs)).
Proof.
  induction evs as [|ev evs IH]; intros st Hr Hb; [done|].
  rewrite run_cons. apply IH.
  - destruct Hr as [n Hn]. eexists. by apply step_rev.
  - by apply step_hist_bounded.
Qed.

Lemma run_head_matches evs : ∀ st,
  head_matches (STORE st) → head_matches (STORE (run st evs)).
Proof.
  induction evs as [|ev evs IH]; intros st Hm; [done|].
  rewrite run_cons. by apply IH, step_head_matches.
Qed.

Lemma snapshot_shape n u doc h :
  (length h ≤ 200)%nat →
  rev_is_int (snapshot n u doc h) ∧ hist_bounded (snapshot n u doc h).
Proof.
  intros Hl. split; [by exists n|]. exists h. split; [|done].
  unfold snapshot. by simplify_map_eq.
Qed.

Lemma boot_shape d now :
  rev_is_int (STORE (boot d now)) ∧ hist_bounded (STORE (boot d now)).
Proof.
  simpl. destruct (read_store_cases d now) as [->|(raw & _ & H)].
  - rewrite default_store_snapshot. apply snapshot_shape. simpl; lia.
  - destruct (is_dict raw) eqn:Hd.
    + destruct raw; try done. rewrite normalize_dict in H.
      destruct (py_int _); [|done]. injection H as <-.
      apply snapshot_shape, kept_history_length.
    + rewrite normalize_other in H by done. injection H as <-.
      rewrite default_store_snapshot. apply snapshot_shape. simpl; lia.
Qed.
End Invariants.

(** ** The claims *)

Section Claims.
Context `{R : PyRuntime}.

(** C1, as amended.  When the persistence step of an upsert fails, the
    handler raises and sends no reply, and the backing file is the one
    that was there before; the store in memory is not rolled back: it
    holds the revision plus one, the new document, the new timestamp and
    the new history entry in front. *)
Theorem C1_failed_persist_keeps_mutation
    (st : server) (req : request) (now : string) (io : io_fault)
    (data doc : gmap string pyval) (n : Z) :
  req_path req = "/api/state" →
  _read_json req = Some data →
  data !! "state" = Some (PDict doc) →
  STORE st !! "rev" = Some (PInt n) →
  io ≠ NoFault →
  ∃ st' e,
    do_POST req now io st = (st', Raised e)
    ∧ store_file (disk st') = store_file (disk st)
    ∧ STORE st' !! "rev" = Some (PInt (n + 1))
    ∧ STORE st' !! "state" = Some (PDict doc)
    ∧ STORE st' !! "updated_at" = Some (PStr now)
    ∧ history_of (STORE st') =
      history_entry (PInt (n + 1)) now (client_of data) (source_of data)
      :: take 199 (history_of (STORE st)).
Proof.
  intros Hp Hj Hs Hrev Hio.
  pose proof (accepted_intro req data doc Hp Hj Hs) as Hacc.
  destruct (do_POST_accepted req now io st Hacc) as (data' & doc' & Hj' & Hs' & ->).
  rewrite Hj in Hj'. injection Hj' as <-.
  rewrite Hs in Hs'. injection Hs' as <-.
  rewrite (upsert_ok _ _ _ _ _ _ n) by by apply py_int_rev.
  simpl.
  destruct (write_store_fault
              (upserted (STORE st) n (PDict doc) (client_of data)
                        (source_of data) now) io (disk st) Hio)
    as (d' & e & -> & Hd).
  eexists _, e. split; [done|]. simpl.
  rewrite upserted_rev, upserted_state, upserted_updated_at, upserted_history.
  by repeat split.
Qed.

(** C2.  A reply of success to an upsert is sent only once the store has
    replaced the backing file: at that point the file holds the store in
    memory, no temporary file is left, and the revision and timestamp of
    the reply are those of the store. *)
Theorem C2_persisted_before_reply
    (st st' : server) (req : request) (now : string) (io : io_fault)
    (p : gmap string pyval) :
  do_POST req now io st = (st', Responded 200 p) →
  store_file (disk st') = Some (Json (PDict (STORE st')))
  ∧ tmp_file (disk st') = None
  ∧ p !! "rev" = STORE st' !! "rev"
  ∧ p !! "updated_at" = STORE st' !! "updated_at".
Proof.
  rewrite do_POST_unfold.
  destruct (negb _); [intros [= _ ?]; done|].
  destruct (accepted req); [|intros [= _ ?]; done].
  destruct (_read_json req) as [data|]; [|intros [= _ ?]; done].
  destruct (py_int (dict_get (STORE st) "rev" (PInt 0))) as [n|e] eqn:Hi.
  - rewrite (upsert_ok _ _ _ _ _ _ n) by done. simpl.
    destruct io; simpl; try (intros [=]; done).
    intros [= <- <-]. simpl.
    rewrite upserted_rev, upserted_updated_at.
    unfold upsert_reply. by simplify_map_eq.
  - rewrite (upsert_raise _ _ _ _ _ _ e) by done. intros [=].
Qed.

Lemma step_acked st ev :
  rev_is_int (STORE st) → persists ev →
  acked ev (snd (step st ev)) = is_upsert ev.
Proof.
  intros [n Hrev] Hp. destruct ev as [path|req now io|]; simpl in *.
  - done.
  - subst io. destruct (accepted req) eqn:E.
    + destruct (do_POST_accepted req now NoFault st E) as (data & doc & _ & _ & ->).
      by rewrite (upsert_ok _ _ _ _ _ _ n) by by apply py_int_rev.
    + destruct (do_POST_rejected req now NoFault st E) as (c & p & -> & Hc).
      simpl. by apply Z.eqb_neq.
  - done.
Qed.

Lemma acknowledged_upserts evs : ∀ st,
  rev_is_int (STORE st) → Forall persists evs →
  acknowledged st evs = upserts evs.
Proof.
  induction evs as [|ev evs IH]; intros st Hr Hp; [done|].
  apply Forall_cons in Hp as [Hev Hevs].
  simpl. rewrite upserts_cons, step_acked by done.
  f_equal. apply IH; [|done].
  destruct Hr as [n Hn]. eexists. by apply step_rev.
Qed.

Lemma acked_is_upsert st ev :
  acked ev (snd (step st ev)) = true → is_upsert ev = true.
Proof.
  destruct ev as [path|req now io|]; simpl; [done| |done].
  destruct (accepted req) eqn:E; [done|].
  destruct (do_POST_rejected req now io st E) as (c & p & -> & Hc).
  simpl. by intros ?%Z.eqb_eq.
Qed.

Lemma acknowledged_le evs : ∀ st, (acknowledged st evs ≤ upserts evs)%nat.
Proof.
  induction evs as [|ev evs IH]; intros st; [done|].
  simpl. rewrite upserts_cons. specialize (IH (fst (step st ev))).
  destruct (acked ev (snd (step st ev))) eqn:E.
  - rewrite (acked_is_upsert _ _ E). lia.
  - destruct (is_upsert ev); lia.
Qed.

(** C3, as amended.  Start from the default store and serve any sequence
    of requests.  The revision then equals the number of upserts that
    passed validation, whether or not they were written, which is at
    least the number of upserts answered with success and equals it when
    no write failed.  The next upsert that passes validation leaves that
    number plus one in the store, replies with it when its write
    succeeds, and raises without a reply when its write fails; a request
    that is not such an upsert leaves the revision as it is. *)
Theorem C3_revision_counts_validated_upserts
    (now0 : string) (d : fs) (evs : list event) :
  let st0 := {| STORE := _default_store now0; disk := d |} in
  let st := run st0 evs in
  let N := Z.of_nat (upserts evs) in
  STORE st !! "rev" = Some (PInt N)
  ∧ (acknowledged st0 evs ≤ upserts evs)%nat
  ∧ (Forall persists evs → acknowledged st0 evs = upserts evs)
  ∧ (∀ req now io, accepted req = true →
       STORE (fst (do_POST req now io st)) !! "rev" = Some (PInt (N + 1))
       ∧ (io = NoFault →
          snd (do_POST req now io st) = Responded 200 (upsert_reply N now))
       ∧ (io ≠ NoFault → ∃ e, snd (do_POST req now io st) = Raised e))
  ∧ (∀ ev, is_upsert ev = false →
       STORE (fst (step st ev)) !! "rev" = Some (PInt N)).
Proof.
  intros st0 st N.
  assert (Hrev0 : STORE st0 !! "rev" = Some (PInt 0)) by done.
  assert (HN : STORE st !! "rev" = Some (PInt N)).
  { unfold st, N. by rewrite (run_rev evs st0 0 Hrev0). }
  split; [done|]. split; [apply acknowledged_le|].
  split; [intros Hp; apply acknowledged_upserts; [by exists 0|done]|].
  split.
  - intros req now io Hacc.
    destruct (do_POST_accepted req now io st Hacc) as (data & doc & _ & _ & ->).
    rewrite (upsert_ok _ _ _ _ _ _ N) by by apply py_int_rev.
    cbv zeta. split; [|split].
    + destruct (_write_store _ io (disk st)) as [d' [[]|e]]; simpl;
        apply upserted_rev.
    + by intros ->.
    + intros Hio.
      destruct (write_store_fault
                  (upserted (STORE st) N (PDict doc) (client_of data)
                            (source_of data) now) io (disk st) Hio)
        as (d' & e & -> & _).
      by exists e.
  - intros ev Hev. by rewrite step_not_upsert.
Qed.

(** C4.  In every state the server reaches, from any backing file and by
    any sequence of requests, the history is a list of at most 200
    entries.  An upsert puts its entry at index 0, in front of the first
    199 entries of the previous history, so that what is dropped is the
    tail; the entry carries the revision the store now has. *)
Theorem C4_history_capped
    (d : fs) (now0 : string) (evs : list event)
    (req : request) (now : string) (io : io_fault) :
  let st := run (boot d now0) evs in
  hist_bounded (STORE st)
  ∧ (accepted req = true →
     let S' := STORE (fst (do_POST req now io st)) in
     hist_bounded S'
     ∧ ∃ e, history_of S' = PDict e :: take 199 (history_of (STORE st))
            ∧ is_Some (S' !! "rev") ∧ e !! "rev" = S' !! "rev").
Proof.
  intros st.
  destruct (boot_shape d now0) as [Hr0 Hb0].
  destruct (run_hist_bounded evs (boot d now0) Hr0 Hb0) as [[n Hn] Hb].
  fold st in Hn, Hb. split; [done|].
  intros Hacc S'.
  destruct (do_POST_accepted req now io st Hacc) as (data & doc & _ & _ & HP).
  unfold S'. rewrite HP, (upsert_store _ _ _ _ _ _ n) by done.
  split; [apply hist_bounded_upserted|].
  rewrite upserted_history, upserted_rev. simpl. eexists. split; [done|].
  split; [eauto|]. by simplify_map_eq.
Qed.

(** C5, as amended.  [_normalize_store] returns a well-formed snapshot
    whenever [int()] accepts the stored revision, which includes a
    missing or falsy one, read as 0, and every input that is not a
    mapping; when [int()] rejects the stored revision the call raises.
    [_read_store], the only caller, catches the exception and loads the
    default snapshot, so loading always gives a well-formed snapshot. *)
Theorem C5_normalize_raises_load_absorbs
    (raw : pyval) (now : string) (d : fs) :
  now ≠ "" →
  (∀ n, py_int (stored_rev raw) = OK n →
     ∃ s, _normalize_store raw now = OK s ∧ well_formed s
          ∧ s !! "rev" = Some (PInt n))
  ∧ (∀ m, raw = PDict m → truthy (dict_get m "rev" (PInt 0)) = false →
       stored_rev raw = PInt 0)
  ∧ (∀ e, py_int (stored_rev raw) = Raise e →
       _normalize_store raw now = Raise e
       ∧ (store_file d = Some (Json raw) →
          _read_store d now = _default_store now))
  ∧ well_formed (_read_store d now).
Proof.
  intros Hnow. repeat split.
  - intros n Hn. destruct (is_dict raw) eqn:Hd.
    + destruct raw as [| | | | | |m]; try done. simpl in Hn.
      rewrite normalize_dict, Hn. eexists. split; [done|]. split; [|done].
      eapply normalize_well_formed; [done|].
      by rewrite normalize_dict, Hn.
    + rewrite normalize_other by done.
      assert (n = 0) as -> by (destruct raw; simpl in *; congruence).
      eexists. split; [done|]. split; [|done]. by apply default_well_formed.
  - intros m -> Hf. simpl. unfold py_or. by rewrite Hf.
  - destruct raw as [| | | | | |m]; try done. simpl in H.
    by rewrite normalize_dict, H.
  - intros Hfile. unfold _read_store. rewrite Hfile.
    destruct raw as [| | | | | |m]; try done. simpl in H.
    by rewrite normalize_dict, H.
  - by apply read_store_well_formed.
Qed.

(** C6, as amended.  The head of the history carries the current
    revision in every state reached from the default store, after every
    upsert that was answered with success, and in every state reached from
    one where it does: each request preserves the property.  Loading does
    not establish it, since [_normalize_store] takes the revision and the
    history from the file as they are. *)
Theorem C6_head_matches_preserved
    (now0 : string) (d : fs) (evs : list event) (st st1 st' : server)
    (req : request) (now : string) (io : io_fault) (p : gmap string pyval) :
  head_matches (STORE (run {| STORE := _default_store now0; disk := d |} evs))
  ∧ (head_matches (STORE st) → head_matches (STORE (run st evs)))
  ∧ (do_POST req now io st1 = (st', Responded 200 p) →
     history_of (STORE st') ≠ [] ∧ head_matches (STORE (run st' evs))).
Proof.
  split; [|split].
  - by apply run_head_matches.
  - apply run_head_matches.
  - rewrite do_POST_unfold.
    destruct (negb _); [intros [= _ ?]; done|].
    destruct (accepted req); [|intros [= _ ?]; done].
    destruct (_read_json req) as [data|]; [|intros [= _ ?]; done].
    destruct (py_int (dict_get (STORE st1) "rev" (PInt 0))) as [n|e] eqn:Hi.
    + rewrite (upsert_ok _ _ _ _ _ _ n) by done. simpl.
      destruct (_write_store _ io (disk st1)) as [d' [[]|e]]; [|intros [=]].
      intros [= <- _]. simpl. split.
      * by rewrite upserted_history.
      * apply run_head_matches. simpl. apply head_matches_upserted.
    + rewrite (upsert_raise _ _ _ _ _ _ e) by done. intros [=].
Qed.

(** C7.  An upsert request whose body is an object but whose [state]
    field is missing or is not an object is answered 400 with the
    invalid-payload error, and neither the store nor the files change. *)
Theorem C7_non_object_state_rejected
    (st : server) (req : request) (now : string) (io : io_fault)
    (data : gmap string pyval) :
  req_path req = "/api/state" →
  _read_json req = Some data →
  (∀ doc, data !! "state" ≠ Some (PDict doc)) →
  do_POST req now io st = (st, Responded 400 invalid_payload).
Proof.
  intros Hp Hj Hs. unfold do_POST. rewrite Hp, Hj. simpl.
  unfold dict_get. destruct (data !! "state") as [[]|] eqn:E; simpl;
    try by rewrite orb_true_r.
  by destruct (Hs d).
Qed.

(** C8.  On a well-formed snapshot [_normalize_store] is the identity. *)
Theorem C8_normalize_idempotent (S : gmap string pyval) (now : string) :
  well_formed S → _normalize_store (PDict S) now = OK S.
Proof.
  intros (n & u & doc & h & -> & Hu & Hh).
  rewrite normalize_dict.
  assert (Hrev : py_int (py_or (dict_get (snapshot n u doc h) "rev" (PInt 0))
                               (PInt 0)) = OK n).
  { unfold dict_get, snapshot. rewrite lookup_insert_eq. simpl.
    unfold py_or. simpl. destruct (n =? 0) eqn:E; simpl; [|done].
    apply Z.eqb_eq in E. by subst. }
  assert (Hu' : kept_updated_at (snapshot n u doc h) now = u).
  { unfold kept_updated_at, dict_get, snapshot. simplify_map_eq. simpl.
    destruct (String.eqb u "") eqn:E; [|done]. by apply String.eqb_eq in E. }
  assert (Hd' : kept_state (snapshot n u doc h) = doc).
  { unfold kept_state, dict_get, snapshot. by simplify_map_eq. }
  assert (Hh' : kept_history (snapshot n u doc h) = h).
  { unfold kept_history, dict_get, snapshot. simplify_map_eq.
    by apply take_ge. }
  by rewrite Hrev, Hu', Hd', Hh'.
Qed.

(** C9.  An upsert request whose body does not decode to an object is
    answered like one whose [state] is not an object: [_read_json] gives
    [None], the reply is the same 400, and the store and the files are
    left as they were. *)
Theorem C9_non_object_body_rejected
    (st : server) (req : request) (now : string) (io : io_fault) :
  req_path req = "/api/state" →
  (∀ data, req_json req ≠ Some (PDict data)) →
  _read_json req = None
  ∧ do_POST req now io st = (st, Responded 400 invalid_payload).
Proof.
  intros Hp Hb.
  assert (Hj : _read_json req = None).
  { unfold _read_json. destruct (int_of_str _); [|done].
    destruct (_ || _); [done|].
    destruct (req_json req) as [[]|] eqn:E; try done. by destruct (Hb d). }
  split; [done|]. unfold do_POST. by rewrite Hp, Hj.
Qed.

Lemma step_dom st ev :
  dom (STORE st) = canonical_fields →
  dom (STORE (fst (step st ev))) = canonical_fields.
Proof.
  intros Hd. destruct (is_upsert ev) eqn:E; [|by rewrite step_not_upsert].
  destruct ev as [path|req now io|]; simpl in *; [done| |done].
  destruct (do_POST_accepted req now io st E) as (data & doc & _ & _ & ->).
  destruct (py_int (dict_get (STORE st) "rev" (PInt 0))) as [n|e] eqn:Hi.
  - rewrite (upsert_ok _ _ _ _ _ _ n) by done. simpl.
    destruct (_write_store _ io (disk st)) as [d [[]|e]]; simpl;
      by apply upserted_dom.
  - rewrite (upsert_raise _ _ _ _ _ _ e) by done. simpl.
    rewrite dom_insert_L, Hd. unfold canonical_fields. set_solver.
Qed.

Lemma run_dom evs : ∀ st,
  dom (STORE st) = canonical_fields →
  dom (STORE (run st evs)) = canonical_fields.
Proof.
  induction evs as [|ev evs IH]; intros st Hd; [done|].
  rewrite run_cons. by apply IH, step_dom.
Qed.

(** C10.  A snapshot returned by [_normalize_store] has the fields
    [rev], [updated_at], [state] and [history] and no other; so has the
    store the server loads, whatever the backing file holds, and the store
    in every state reached from there. *)
Theorem C10_normalize_canonical_fields
    (raw : pyval) (now : string) (s : gmap string pyval)
    (d : fs) (evs : list event) :
  (_normalize_store raw now = OK s → dom s = canonical_fields)
  ∧ dom (_read_store d now) = canonical_fields
  ∧ dom (STORE (run (boot d now) evs)) = canonical_fields.
Proof.
  split; [|split].
  - intros H. destruct (is_dict raw) eqn:Hd.
    + destruct raw; try done. rewrite normalize_dict in H.
      destruct (py_int _); [|done]. injection H as <-. apply dom_snapshot.
    + rewrite normalize_other in H by done. injection H as <-.
      rewrite default_store_snapshot. apply dom_snapshot.
  - apply read_store_dom.
  - apply run_dom. simpl. apply read_store_dom.
Qed.
End Claims.

(** ** The claims on the sample data *)

Module Run.
Import Sample.

#[local] Abbreviation RT := Reference.runtime.

(** C1 as the claim states it fails: the write of an upsert fails in
    [os.replace], the handler raises, and the store in memory has moved
    from revision 0 to revision 1. *)
Lemma C1_counterexample :
  let r := do_POST (R := RT) post_a1 "t1" ReplaceFails fresh in
  snd r = Raised OSError
  ∧ STORE fresh !! "rev" = Some (PInt 0)
  ∧ STORE (fst r) !! "rev" = Some (PInt 1)
  ∧ STORE (fst r) ≠ STORE fresh.
Proof.
  cbv zeta. split; [by vm_compute|]. split; [by vm_compute|].
  assert (H : STORE (fst (do_POST (R := RT) post_a1 "t1" ReplaceFails fresh))
              !! "rev" = Some (PInt 1)) by by vm_compute.
  split; [exact H|]. intros E. rewrite E in H. clear E.
  vm_compute in H. discriminate H.
Qed.

Lemma C1_witness :
  ∃ st' e,
    do_POST (R := RT) post_a1 "t1" ReplaceFails fresh = (st', Raised e)
    ∧ store_file (disk st') = None
    ∧ STORE st' !! "rev" = Some (PInt 1).
Proof.
  destruct (C1_failed_persist_keeps_mutation (R := RT)
              fresh post_a1 "t1" ReplaceFails data_a1 doc_a1 0)
    as (st' & e & H & Hf & Hr & _);
    [reflexivity | reflexivity | reflexivity | reflexivity | discriminate |].
  exists st', e. split; [exact H|]. split; [exact Hf | exact Hr].
Defined.

Lemma C2_witness :
  let st' := fst (do_POST (R := RT) post_a1 "t1" NoFault fresh) in
  store_file (disk st') = Some (Json (PDict (STORE st'))).
Proof.
  cbv zeta.
  refine (proj1 (C2_persisted_before_reply (R := RT)
                   fresh _ post_a1 "t1" NoFault _ _)).
  reflexivity.
Defined.

(** C3 as the claim states it fails: of two upserts the first is not
    written and the second is, so one upsert is answered with success; it
    is answered with revision 2, which is the revision of the store. *)
Lemma C3_counterexample :
  acknowledged (R := RT) fresh rough_session = 1%nat
  ∧ STORE (run (R := RT) fresh rough_session) !! "rev" = Some (PInt 2)
  ∧ snd (do_POST (R := RT) post_a1 "t2" NoFault
           (run (R := RT) fresh
              [POST post_a1 "t1" ReplaceFails; GET "/api/state"]))
    = Responded 200 (upsert_reply 1 "t2").
Proof. split; [|split]; by vm_compute. Qed.

Lemma C3_witness :
  STORE (run (R := RT) fresh session) !! "rev" = Some (PInt 2)
  ∧ acknowledged (R := RT) fresh session = upserts (R := RT) session.
Proof.
  split.
  - exact (proj1 (C3_revision_counts_validated_upserts (R := RT)
                    "t0" empty_disk session)).
  - refine (proj1 (proj2 (proj2 (C3_revision_counts_validated_upserts
                                   (R := RT) "t0" empty_disk session))) _).
    repeat constructor.
Defined.

Lemma C4_witness :
  let st := run (R := RT) (boot (R := RT) empty_disk "t0") session in
  let S' := STORE (fst (do_POST (R := RT) post_a1 "t3" (DumpFails OSError) st)) in
  hist_bounded S'
  ∧ ∃ e, history_of S' = PDict e :: take 199 (history_of (STORE st))
         ∧ is_Some (S' !! "rev") ∧ e !! "rev" = S' !! "rev".
Proof.
  cbv zeta.
  refine (proj2 (C4_history_capped (R := RT) empty_disk "t0" session
                   post_a1 "t3" (DumpFails OSError)) _).
  reflexivity.
Defined.

(** C5 as the claim states it fails: a revision that is a non-numeric
    string, or a non-empty list, makes [_normalize_store] raise. *)
Lemma C5_counterexample :
  _normalize_store (R := RT) rev_abc "t0" = Raise ValueError
  ∧ _normalize_store (R := RT) rev_list "t0" = Raise TypeError.
Proof. split; reflexivity. Qed.

Lemma C5_witness :
  ∃ s, _normalize_store (R := RT) extra_field "t0" = OK s
       ∧ well_formed s ∧ s !! "rev" = Some (PInt 7).
Proof.
  refine (proj1 (C5_normalize_raises_load_absorbs (R := RT)
                   extra_field "t0" empty_disk _) 7 _);
    [discriminate | reflexivity].
Defined.

(** C6 as the claim states it fails: the server loads a file whose
    revision is 5 and whose newest history entry says 3, and keeps both. *)
Lemma C6_counterexample :
  let S := STORE (boot (R := RT) stale_disk "t0") in
  S !! "rev" = Some (PInt 5)
  ∧ history_of S = [PDict (<["rev" := PInt 3]> ∅)]
  ∧ ¬ head_matches S.
Proof.
  cbv zeta. split; [by vm_compute|]. split; [by vm_compute|].
  intros H. vm_compute in H. destruct H as [_ H]. discriminate H.
Qed.

Lemma C6_witness :
  let st' := fst (do_POST (R := RT) post_a1 "t1" NoFault
                    (boot (R := RT) stale_disk "t0")) in
  history_of (STORE st') ≠ []
  ∧ head_matches (STORE (run (R := RT) st' session)).
Proof.
  cbv zeta.
  refine (proj2 (proj2 (C6_head_matches_preserved (R := RT)
                          "t0" empty_disk session fresh
                          (boot (R := RT) stale_disk "t0") _
                          post_a1 "t1" NoFault _)) _).
  reflexivity.
Defined.

Lemma C7_witness :
  do_POST (R := RT) post_list_state "t1" NoFault fresh
  = (fresh, Responded 400 invalid_payload).
Proof.
  refine (C7_non_object_state_rejected (R := RT) fresh post_list_state
            "t1" NoFault data_list_state _ _ _);
    [reflexivity | reflexivity |].
  intros doc H. vm_compute in H. discriminate H.
Defined.

Lemma C8_witness :
  _normalize_store (R := RT) (PDict (snapshot 3 "t9" doc_a1 [])) "t0"
  = OK (snapshot 3 "t9" doc_a1 []).
Proof.
  refine (C8_normalize_idempotent (R := RT) _ "t0" _).
  exists 3, "t9", doc_a1, []. split; [reflexivity|].
  split; [discriminate | simpl; lia].
Defined.

Lemma C9_witness :
  _read_json (R := RT) post_array = None
  ∧ do_POST (R := RT) post_array "t1" NoFault fresh
    = (fresh, Responded 400 invalid_payload).
Proof.
  refine (C9_non_object_body_rejected (R := RT) fresh post_array
            "t1" NoFault _ _); [reflexivity|].
  intros data H. discriminate H.
Defined.

Lemma C10_witness :
  _normalize_store (R := RT) extra_field "t0" = OK (snapshot 7 "t0" ∅ [])
  ∧ dom (snapshot 7 "t0" ∅ []) = canonical_fields.
Proof.
  assert (H : _normalize_store (R := RT) extra_field "t0"
              = OK (snapshot 7 "t0" ∅ [])) by reflexivity.
  split; [exact H|].
  exact (proj1 (C10_normalize_canonical_fields (R := RT)
                  extra_field "t0" _ empty_disk []) H).
Defined.
End Run.

(** ** Further properties of the store *)

Section MoreFacts.
Context `{R : PyRuntime}.

Lemma history_of_snapshot n u doc h : history_of (snapshot n u doc h) = h.
Proof. unfold history_of, snapshot. by simplify_map_eq. Qed.

(** An upsert of a snapshot is the snapshot of the new fields. *)
Lemma upserted_snapshot n u doc h doc' client source now :
  upserted (snapshot n u doc h) n (PDict doc') client source now =
  snapshot (n + 1) now doc'
    (take 200 (history_entry (PInt (n + 1)) now client source :: h)).
Proof.
  unfold upserted. rewrite history_of_snapshot. unfold snapshot.
  apply map_eq. intros k.
  destruct (decide (k = "history")) as [->|]; [by simplify_map_eq|].
  destruct (decide (k = "updated_at")) as [->|]; [by simplify_map_eq|].
  destruct (decide (k = "rev")) as [->|]; [by simplify_map_eq|].
  destruct (decide (k = "state")) as [->|]; [by simplify_map_eq|].
  by simplify_map_eq.
Qed.

Lemma normalize_snapshot n u doc h now :
  u ≠ "" → (length h ≤ 200)%nat →
  _normalize_store (PDict (snapshot n u doc h)) now = OK (snapshot n u doc h).
Proof.
  intros Hu Hh. rewrite normalize_dict.
  assert (Hrev : py_int (py_or (dict_get (snapshot n u doc h) "rev" (PInt 0))
                               (PInt 0)) = OK n).
  { unfold dict_get, snapshot. rewrite lookup_insert_eq. simpl.
    unfold py_or. simpl. destruct (n =? 0) eqn:E; simpl; [|done].
    apply Z.eqb_eq in E. by subst. }
  assert (Hu' : kept_updated_at (snapshot n u doc h) now = u).
  { unfold kept_updated_at, dict_get, snapshot. simplify_map_eq. simpl.
    destruct (String.eqb u "") eqn:E; [|done]. by apply String.eqb_eq in E. }
  assert (Hd' : kept_state (snapshot n u doc h) = doc).
  { unfold kept_state, dict_get, snapshot. by simplify_map_eq. }
  assert (Hh' : kept_history (snapshot n u doc h) = h).
  { unfold kept_history, dict_get, snapshot. simplify_map_eq.
    by apply take_ge. }
  by rewrite Hrev, Hu', Hd', Hh'.
Qed.

Lemma snapshot_rev n u doc h : snapshot n u doc h !! "rev" = Some (PInt n).
Proof. done. Qed.

(** What a reply of success tells about the request and the new state. *)
Lemma do_POST_ack_inv req now io st st' p :
  do_POST req now io st = (st', Responded 200 p) →
  ∃ data doc n,
    _read_json req = Some data ∧ data !! "state" = Some (PDict doc)
    ∧ py_int (dict_get (STORE st) "rev" (PInt 0)) = OK n
    ∧ io = NoFault ∧ p = upsert_reply n now
    ∧ STORE st' =
      upserted (STORE st) n (PDict doc) (client_of data) (source_of data) now
    ∧ disk st' =
      {| store_file := Some (Json (PDict (STORE st'))); tmp_file := None |}.
Proof.
  intros H. destruct (accepted req) eqn:E.
  - destruct (do_POST_accepted req now io st E) as (data & doc & Hj & Hs & HP).
    rewrite HP in H.
    destruct (py_int (dict_get (STORE st) "rev" (PInt 0))) as [n|e] eqn:Hi.
    + rewrite (upsert_ok _ _ _ _ _ _ n) in H by done. simpl in H.
      destruct io; simpl in H; try (by inversion H).
      injection H as <- <-. by exists data, doc, n.
    + rewrite (upsert_raise _ _ _ _ _ _ e) in H by done. by inversion H.
  - destruct (do_POST_rejected req now io st E) as (c & q & Hq & Hc).
    rewrite Hq in H. injection H as _ ? _. by subst.
Qed.

(** Where the write of an upsert leaves the store file. *)
Lemma upsert_disk state client source now io st n :
  py_int (dict_get (STORE st) "rev" (PInt 0)) = OK n →
  let st' := fst (upsert state client source now io st) in
  store_file (disk st') = store_file (disk st)
  ∨ store_file (disk st') = Some (Json (PDict (STORE st'))).
Proof.
  intros H. rewrite (upsert_ok _ _ _ _ _ _ n) by done. simpl.
  destruct io; simpl; auto.
Qed.

Lemma step_well_formed st ev :
  clock_ok ev → well_formed (STORE st) →
  well_formed (STORE (fst (step st ev))).
Proof.
  intros Hc Hw. destruct (is_upsert ev) eqn:E; [|by rewrite step_not_upsert].
  destruct Hw as (n & u & doc & h & HS & Hu & Hh).
  assert (Hrev : STORE st !! "rev" = Some (PInt n)) by by rewrite HS.
  destruct (step_upsert st ev n E Hrev)
    as (req & now & io & data & doc' & -> & _ & _ & ->).
  rewrite HS, upserted_snapshot. simpl in Hc.
  eexists _, now, doc', _. split; [done|]. split; [done|].
  rewrite length_take. lia.
Qed.

Lemma run_well_formed evs : ∀ st,
  Forall clock_ok evs → well_formed (STORE st) →
  well_formed (STORE (run st evs)).
Proof.
  induction evs as [|ev evs IH]; intros st Hc Hw; [done|].
  apply Forall_cons in Hc as [Hev Hevs].
  rewrite run_cons. apply IH; [done|]. by apply step_well_formed.
Qed.
End MoreFacts.

Section Extras.
Context `{R : PyRuntime}.

(** X1.  When the clock never reads as the empty string, the store is a
    well-formed snapshot in every state the server reaches, from any
    backing file and through any requests, failing writes included. *)
Theorem X1_reachable_well_formed
    (d : fs) (now0 : string) (evs : list event) :
  now0 ≠ "" → Forall clock_ok evs →
  well_formed (STORE (run (boot d now0) evs)).
Proof.
  intros Hnow Hc. apply run_well_formed; [done|].
  simpl. by apply read_store_well_formed.
Qed.

(** X2.  After an upsert answered with success on a well-formed store, a
    restart reads back the very store that was in memory, at whatever
    time it happens. *)
Theorem X2_restart_after_success
    (st st' : server) (req : request) (now now' : string) (io : io_fault)
    (p : gmap string pyval) :
  well_formed (STORE st) → now ≠ "" →
  do_POST req now io st = (st', Responded 200 p) →
  STORE (boot (disk st') now') = STORE st'.
Proof.
  intros (n & u & doc & h & HS & Hu & Hh) Hnow HP.
  destruct (do_POST_ack_inv _ _ _ _ _ _ HP)
    as (data & doc' & n' & _ & _ & Hi & _ & _ & HS' & Hd).
  rewrite HS in Hi. unfold dict_get in Hi. rewrite snapshot_rev in Hi.
  simpl in Hi. injection Hi as <-.
  rewrite HS, upserted_snapshot in HS'.
  unfold boot, _read_store. cbn [STORE]. rewrite Hd. cbn [store_file].
  rewrite HS'. rewrite normalize_snapshot; [done|done|].
  rewrite length_take. lia.
Qed.

Lemma step_disk_behind f0 st ev :
  rev_is_int (STORE st) → disk_behind f0 st →
  disk_behind f0 (fst (step st ev)).
Proof.
  intros [m Hm] Hd. destruct (is_upsert ev) eqn:E; [|by rewrite step_not_upsert].
  destruct ev as [path|req now io|]; simpl in *; [done| |done].
  destruct (do_POST_accepted req now io st E) as (data & doc & _ & _ & ->).
  pose proof (py_int_rev _ _ Hm) as Hi.
  pose proof (upsert_store (PDict doc) (client_of data) (source_of data)
                now io st m Hm) as HS.
  assert (Hr : STORE (fst (upsert (PDict doc) (client_of data)
                             (source_of data) now io st)) !! "rev"
               = Some (PInt (m + 1))) by (rewrite HS; apply upserted_rev).
  destruct (upsert_disk (PDict doc) (client_of data) (source_of data)
              now io st m Hi) as [Hf|Hf].
  - destruct Hd as [Hd|(S & n & m' & HS0 & Hn & Hm' & Hle)].
    + left. by rewrite Hf.
    + right. exists S, n, (m + 1). rewrite Hf. repeat split; try done.
      rewrite Hm in Hm'. injection Hm' as <-. lia.
  - right. eexists _, (m + 1), (m + 1). split; [exact Hf|].
    split; [done|]. split; [done|lia].
Qed.

Lemma run_disk_behind f0 evs : ∀ st,
  rev_is_int (STORE st) → disk_behind f0 st → disk_behind f0 (run st evs).
Proof.
  induction evs as [|ev evs IH]; intros st Hr Hd; [done|].
  rewrite run_cons. apply IH.
  - destruct Hr as [n Hn]. eexists. by apply step_rev.
  - by apply step_disk_behind.
Qed.

(** X3.  Whatever requests are served and whichever writes fail, the
    store file is either the one found at start or a dictionary written
    by the server whose revision does not exceed the revision in memory:
    the file is never ahead of the process and never half written. *)
Theorem X3_disk_never_ahead (d : fs) (now0 : string) (evs : list event) :
  disk_behind (store_file d) (run (boot d now0) evs).
Proof.
  apply run_disk_behind; [apply boot_shape|]. by left.
Qed.

(** X4.  The revision counts the upserts that passed validation, whether
    or not they were written: after any requests it is the revision
    loaded at start plus the number of such upserts, which is at least
    the number of upserts answered with success. *)
Theorem X4_revision_counts_accepted
    (d : fs) (now0 : string) (evs : list event) :
  ∃ n,
    STORE (boot d now0) !! "rev" = Some (PInt n)
    ∧ STORE (run (boot d now0) evs) !! "rev"
      = Some (PInt (n + Z.of_nat (upserts evs)))
    ∧ (acknowledged (boot d now0) evs ≤ upserts evs)%nat.
Proof.
  destruct (boot_shape d now0) as [[n Hn] _].
  exists n. split; [done|]. split; [by apply run_rev|apply acknowledged_le].
Qed.

Lemma do_GET_state st :
  do_GET "/api/state" st =
  _send_json 200
    (<["ok" := PBool true]>
       (<["rev" := dict_get (STORE st) "rev" (PInt 0)]>
          (<["updated_at" := dict_get (STORE st) "updated_at" (PStr "")]>
             (<["state" := dict_get (STORE st) "state" (PDict ∅)]> ∅)))).
Proof. reflexivity. Qed.

(** X5.  Once an upsert has passed validation, a fetch of the state sends
    the posted document, whole, with the revision plus one and the
    timestamp of the upsert, also when the write of that upsert failed:
    this is the reply when the payload encodes, and when it does not the
    fetch raises and nothing is sent. *)
Theorem X5_fetch_after_upsert
    (st : server) (req : request) (now : string) (io : io_fault)
    (data doc : gmap string pyval) (n : Z) :
  req_path req = "/api/state" →
  _read_json req = Some data →
  data !! "state" = Some (PDict doc) →
  STORE st !! "rev" = Some (PInt n) →
  let reply := state_reply (n + 1) now doc in
  let fetched := do_GET "/api/state" (fst (do_POST req now io st)) in
  fetched = _send_json 200 reply
  ∧ (sendable reply = true → fetched = Responded 200 reply)
  ∧ (sendable reply = false → fetched = Raised ValueError).
Proof.
  intros Hp Hj Hs Hrev reply fetched.
  assert (H : fetched = _send_json 200 reply).
  { unfold fetched, reply.
    pose proof (accepted_intro req data doc Hp Hj Hs) as Hacc.
    destruct (do_POST_accepted req now io st Hacc)
      as (data' & doc' & Hj' & Hs' & ->).
    rewrite Hj in Hj'. injection Hj' as <-.
    rewrite Hs in Hs'. injection Hs' as <-.
    rewrite do_GET_state, (upsert_store _ _ _ _ _ _ n) by done.
    unfold dict_get.
    by rewrite upserted_rev, upserted_state, upserted_updated_at. }
  split; [done|]. rewrite H. unfold _send_json.
  split; by intros ->.
Qed.

(** X6.  The announced length gates the upsert: when [Content-Length]
    does not read as an integer between 1 and 25000000 the request is
    answered 400 and nothing changes, whatever the body; when it does, a
    body that is an object with an object [state] passes validation. *)
Theorem X6_content_length_gate
    (st : server) (req : request) (now : string) (io : io_fault) :
  req_path req = "/api/state" →
  ((∀ size, int_of_str (default "0" (req_content_length req)) = Some size →
      size ≤ 0 ∨ 25000000 < size) →
   do_POST req now io st = (st, Responded 400 invalid_payload))
  ∧ (∀ size data doc,
       int_of_str (default "0" (req_content_length req)) = Some size →
       0 < size ≤ 25000000 →
       req_json req = Some (PDict data) →
       data !! "state" = Some (PDict doc) →
       accepted req = true).
Proof.
  intros Hp. split.
  - intros Hsz.
    assert (Hj : _read_json req = None).
    { unfold _read_json.
      destruct (int_of_str _) as [size|]; [|done].
      destruct (Hsz size eq_refl) as [H|H].
      - apply Z.leb_le in H. by rewrite H.
      - apply Z.ltb_lt in H. rewrite H. by rewrite orb_true_r. }
    unfold do_POST. by rewrite Hp, Hj.
  - intros size data doc Hsz [Hlo Hhi] Hb Hs.
    apply (accepted_intro req data doc); [done| |done].
    unfold _read_json. rewrite Hsz, Hb.
    apply Z.leb_gt in Hlo. apply Z.ltb_ge in Hhi. by rewrite Hlo, Hhi.
Qed.

(** X7.  The port of [main]: a [PVS_SYNC_PORT] that is not empty and
    reads as an integer wins over the command line; otherwise the first
    argument counts when it reads as an integer; otherwise the port is
    8765.  Values that do not read as integers are ignored. *)
Theorem X7_main_port_precedence
    (argv : list string) (env_port : option string) :
  (∀ e p, env_port = Some e → e ≠ "" → int_of_str e = Some p →
     main_port argv env_port = p)
  ∧ ((∀ e, env_port = Some e → e = "" ∨ int_of_str e = None) →
     main_port argv env_port = main_port argv None)
  ∧ (∀ prog a rest p, argv = prog :: a :: rest → int_of_str a = Some p →
       main_port argv None = p)
  ∧ ((∀ prog a rest, argv = prog :: a :: rest → int_of_str a = None) →
     main_port argv None = 8765).
Proof.
  repeat split.
  - intros e p -> He Hp. unfold main_port.
    apply String.eqb_neq in He. by rewrite He, Hp.
  - intros H. destruct env_port as [e|]; [|done].
    unfold main_port. destruct (H e eq_refl) as [->|He]; [done|].
    rewrite He. by destruct (String.eqb e "").
  - intros prog a rest p -> Hp. unfold main_port. by rewrite Hp.
  - intros H. unfold main_port. destruct argv as [|prog [|a rest]]; try done.
    by rewrite (H prog a rest eq_refl).
Qed.

Lemma str_prefix_length n : ∀ s, (String.length (str_prefix n s) ≤ n)%nat.
Proof.
  unfold str_prefix. induction n as [|n IH]; intros [|c s]; simpl; try lia.
  specialize (IH s). lia.
Qed.

Lemma str_prefix_short n : ∀ s,
  (String.length s ≤ n)%nat → str_prefix n s = s.
Proof.
  unfold str_prefix. induction n as [|n IH]; intros [|c s] H; simpl in *;
    try done; try lia.
  f_equal. apply IH. lia.
Qed.

(** X8.  The entry an upsert puts in front of the history names its
    client and source by at most 120 characters each: [ANON] and the
    empty string when the fields are missing, the strings themselves when
    they are strings of at most 120 characters. *)
Theorem X8_identifiers_capped
    (st : server) (req : request) (now : string) (io : io_fault)
    (data doc : gmap string pyval) (n : Z) :
  req_path req = "/api/state" →
  _read_json req = Some data →
  data !! "state" = Some (PDict doc) →
  STORE st !! "rev" = Some (PInt n) →
  ∃ c s,
    history_of (STORE (fst (do_POST req now io st)))
    = history_entry (PInt (n + 1)) now c s
      :: take 199 (history_of (STORE st))
    ∧ (String.length c ≤ 120)%nat ∧ (String.length s ≤ 120)%nat
    ∧ (data !! "client" = None → c = "ANON")
    ∧ (data !! "source" = None → s = "")
    ∧ (∀ x, data !! "client" = Some (PStr x) →
         (String.length x ≤ 120)%nat → c = x)
    ∧ (∀ x, data !! "source" = Some (PStr x) →
         (String.length x ≤ 120)%nat → s = x).
Proof.
  intros Hp Hj Hs Hrev.
  pose proof (accepted_intro req data doc Hp Hj Hs) as Hacc.
  destruct (do_POST_accepted req now io st Hacc) as (data' & doc' & Hj' & Hs' & ->).
  rewrite Hj in Hj'. injection Hj' as <-.
  exists (client_of data), (source_of data).
  rewrite (upsert_store _ _ _ _ _ _ n), upserted_history by done.
  split; [done|].
  split; [apply str_prefix_length|]. split; [apply str_prefix_length|].
  unfold client_of, source_of, dict_get. repeat split.
  - by intros ->.
  - by intros ->.
  - intros x -> Hx. simpl. by apply str_prefix_short.
  - intros x -> Hx. simpl. by apply str_prefix_short.
Qed.

(** X9.  What [_normalize_store] returns it returns again when applied to
    its own result, at any later time: normalising twice is normalising
    once, for every input on which it returns. *)
Theorem X9_normalize_twice
    (raw : pyval) (now now' : string) (s : gmap string pyval) :
  now ≠ "" →
  _normalize_store raw now = OK s →
  _normalize_store (PDict s) now' = OK s.
Proof.
  intros Hnow H.
  destruct (normalize_well_formed raw now s Hnow H)
    as (n & u & doc & h & -> & Hu & Hh).
  by apply normalize_snapshot.
Qed.

Lemma descending_take k : ∀ h n, descending n h → descending n (take k h).
Proof.
  induction k as [|k IH]; intros [|e h] n; simpl; try done.
  intros [He Hh]. split; [done|]. by apply IH.
Qed.

Lemma entry_field_rev r now c s :
  entry_field "rev" (history_entry r now c s) = Some r.
Proof. unfold entry_field, history_entry. by simplify_map_eq. Qed.

Lemma entry_field_at r now c s :
  entry_field "at" (history_entry r now c s) = Some (PStr now).
Proof. unfold entry_field, history_entry. by simplify_map_eq. Qed.

Lemma step_trail st ev n :
  0 ≤ n →
  STORE st !! "rev" = Some (PInt n) →
  descending n (history_of (STORE st)) →
  length (history_of (STORE st)) = Nat.min (Z.to_nat n) 200 →
  let n' := n + (if is_upsert ev then 1 else 0) in
  let S' := STORE (fst (step st ev)) in
  descending n' (history_of S')
  ∧ length (history_of S') = Nat.min (Z.to_nat n') 200.
Proof.
  intros Hn Hrev Hd Hl. destruct (is_upsert ev) eqn:E; cbv zeta.
  - destruct (step_upsert st ev n E Hrev) as (?&?&?&?&?&_&_&_&->).
    rewrite upserted_history. split.
    + apply descending_take. cbn [descending]. rewrite entry_field_rev.
      split; [done|]. by replace (n + 1 - 1) with n by lia.
    + rewrite length_take. cbn [length]. rewrite Hl. lia.
  - rewrite step_not_upsert by done. by rewrite Z.add_0_r.
Qed.

Lemma run_trail evs : ∀ st n,
  0 ≤ n →
  STORE st !! "rev" = Some (PInt n) →
  descending n (history_of (STORE st)) →
  length (history_of (STORE st)) = Nat.min (Z.to_nat n) 200 →
  let n' := n + Z.of_nat (upserts evs) in
  let S' := STORE (run st evs) in
  descending n' (history_of S')
  ∧ length (history_of S') = Nat.min (Z.to_nat n') 200.
Proof.
  induction evs as [|ev evs IH]; intros st n Hn Hrev Hd Hl; cbv zeta.
  - simpl. by rewrite Z.add_0_r.
  - rewrite run_cons, upserts_cons.
    destruct (step_trail st ev n Hn Hrev Hd Hl) as [Hd' Hl'].
    pose proof (step_rev st ev n Hrev) as Hrev'.
    assert (Hn' : 0 ≤ n + (if is_upsert ev then 1 else 0))
      by (destruct (is_upsert ev); lia).
    destruct (IH _ _ Hn' Hrev' Hd' Hl') as [Hd'' Hl''].
    replace (n + Z.of_nat ((if is_upsert ev then 1 else 0) + upserts evs))
      with (n + (if is_upsert ev then 1 else 0) + Z.of_nat (upserts evs))
      by (destruct (is_upsert ev); lia).
    done.
Qed.

(** X10.  On a server started without usable backing file the history is
    an exact trail: after [N] upserts that passed validation it holds
    [min N 200] entries whose revisions are [N], [N - 1], [N - 2], ... in
    this order, so that the entries dropped are those of the lowest
    revisions. *)
Theorem X10_history_trail (now0 : string) (d : fs) (evs : list event) :
  let S := STORE (run {| STORE := _default_store now0; disk := d |} evs) in
  descending (Z.of_nat (upserts evs)) (history_of S)
  ∧ length (history_of S) = Nat.min (upserts evs) 200.
Proof.
  cbv zeta.
  destruct (run_trail evs {| STORE := _default_store now0; disk := d |} 0)
    as [Hd Hl]; try done.
  rewrite Z.add_0_l in Hd, Hl. by rewrite Nat2Z.id in Hl.
Qed.

Lemma head_stamped_upserted S n state client source now :
  head_stamped (upserted S n state client source now).
Proof.
  unfold head_stamped. rewrite upserted_history, upserted_updated_at.
  cbn [take]. apply entry_field_at.
Qed.

Lemma step_head_stamped st ev :
  head_stamped (STORE st) → head_stamped (STORE (fst (step st ev))).
Proof.
  intros Hm. destruct (is_upsert ev) eqn:E; [|by rewrite step_not_upsert].
  destruct ev as [path|req now io|]; simpl in *; [done| |done].
  destruct (do_POST_accepted req now io st E) as (data & doc & _ & _ & ->).
  destruct (py_int (dict_get (STORE st) "rev" (PInt 0))) as [n|e] eqn:Hi.
  - rewrite (upsert_ok _ _ _ _ _ _ n) by done. simpl.
    destruct (_write_store _ io (disk st)) as [d [[]|e]]; simpl;
      apply head_stamped_upserted.
  - rewrite (upsert_raise _ _ _ _ _ _ e) by done. simpl.
    unfold head_stamped, history_of in *.
    by rewrite !lookup_insert_ne.
Qed.

Lemma run_head_stamped evs : ∀ st,
  head_stamped (STORE st) → head_stamped (STORE (run st evs)).
Proof.
  induction evs as [|ev evs IH]; intros st Hm; [done|].
  rewrite run_cons. by apply IH, step_head_stamped.
Qed.

(** X11.  [updated_at] is the time of the last upsert that passed
    validation: every request keeps the newest history entry stamped with
    it, and right after such an upsert it is the clock reading of that
    upsert, the history being non-empty. *)
Theorem X11_updated_at_is_last_upsert
    (st : server) (evs : list event)
    (req : request) (now : string) (io : io_fault) (n : Z) :
  (head_stamped (STORE st) → head_stamped (STORE (run st evs)))
  ∧ (accepted req = true → STORE st !! "rev" = Some (PInt n) →
     let S' := STORE (fst (do_POST req now io st)) in
     S' !! "updated_at" = Some (PStr now)
     ∧ ∃ e t, history_of S' = e :: t
              ∧ entry_field "at" e = Some (PStr now)
              ∧ head_stamped (STORE (run (fst (do_POST req now io st)) evs))).
Proof.
  split; [apply run_head_stamped|].
  intros Hacc Hrev S'.
  destruct (do_POST_accepted req now io st Hacc) as (data & doc & _ & _ & HP).
  unfold S'. rewrite HP, (upsert_store _ _ _ _ _ _ n) by done.
  split; [apply upserted_updated_at|].
  rewrite upserted_history. cbn [take]. eexists _, _. split; [done|].
  split; [apply entry_field_at|].
  apply run_head_stamped. rewrite (upsert_store _ _ _ _ _ _ n) by done.
  apply head_stamped_upserted.
Qed.

(** X12.  In every state the server reaches, what the history endpoint
    sends is a list of at most 200 entries, with status 200; it sends
    nothing, and raises, when that list does not encode. *)
Theorem X12_history_endpoint_bounded
    (d : fs) (now0 : string) (evs : list event) :
  ∃ h,
    (length h ≤ 200)%nat
    ∧ do_GET "/api/history" (run (boot d now0) evs)
      = _send_json 200 (<["ok" := PBool true]> (<["history" := PList h]> ∅))
    ∧ ∀ status p,
        do_GET "/api/history" (run (boot d now0) evs) = Responded status p →
        status = 200
        ∧ p = <["ok" := PBool true]> (<["history" := PList h]> ∅).
Proof.
  destruct (boot_shape d now0) as [Hr0 Hb0].
  destruct (run_hist_bounded evs (boot d now0) Hr0 Hb0) as [_ (h & Hh & Hl)].
  exists h. split; [done|].
  assert (H : do_GET "/api/history" (run (boot d now0) evs)
              = _send_json 200
                  (<["ok" := PBool true]> (<["history" := PList h]> ∅))).
  { change (do_GET "/api/history" (run (boot d now0) evs))
      with (_send_json 200
              (<["ok" := PBool true]>
                 (<["history" :=
                      dict_get (STORE (run (boot d now0) evs)) "history"
                               (PList [])]> ∅))).
    unfold dict_get. by rewrite Hh. }
  split; [done|]. intros status p. rewrite H. unfold _send_json.
  destruct (sendable _); [|done]. by intros [= <- <-].
Qed.

End Extras.

(** ** The further properties on the sample data *)

Module RunMore.
Import Sample.

#[local] Abbreviation RT := Reference.runtime.

Lemma X1_witness :
  well_formed (STORE (run (R := RT) (boot (R := RT) stale_disk "t0")
                          rough_session)).
Proof.
  refine (X1_reachable_well_formed (R := RT) stale_disk "t0"
            rough_session _ _); [discriminate|].
  repeat constructor; discriminate.
Defined.

Lemma X2_witness :
  STORE (boot (R := RT)
           (disk (fst (do_POST (R := RT) post_a1 "t1" NoFault fresh))) "t5")
  = STORE (fst (do_POST (R := RT) post_a1 "t1" NoFault fresh)).
Proof.
  refine (X2_restart_after_success (R := RT) fresh _ post_a1 "t1" "t5"
            NoFault _ _ _ _); [|discriminate|reflexivity].
  exists 0, "t0", ∅, []. split; [reflexivity|].
  split; [discriminate | simpl; lia].
Defined.

Lemma X5_witness :
  do_GET (R := RT) "/api/state"
    (fst (do_POST (R := RT) post_a1 "t1" ReplaceFails fresh))
  = Responded 200 (state_reply 1 "t1" doc_a1).
Proof.
  refine (proj1 (proj2 (X5_fetch_after_upsert (R := RT) fresh post_a1 "t1"
                          ReplaceFails data_a1 doc_a1 0
                          eq_refl eq_refl eq_refl eq_refl)) _).
  reflexivity.
Defined.

Lemma X6_witness :
  do_POST (R := RT) post_huge "t1" NoFault fresh
  = (fresh, Responded 400 invalid_payload).
Proof.
  refine (proj1 (X6_content_length_gate (R := RT) fresh post_huge "t1"
                   NoFault _) _); [reflexivity|].
  intros size H. injection H as <-. right. reflexivity.
Defined.

Lemma X7_witness :
  main_port (R := RT) ["sync_server.py"; "9000"] (Some "8080") = 8080
  ∧ main_port (R := RT) ["sync_server.py"; "9000"] (Some "http")
    = main_port (R := RT) ["sync_server.py"; "9000"] None
  ∧ main_port (R := RT) ["sync_server.py"; "9000"] None = 9000.
Proof.
  split; [|split].
  - refine (proj1 (X7_main_port_precedence (R := RT) _ _) "8080" 8080 _ _ _);
      [reflexivity | discriminate | reflexivity].
  - refine (proj1 (proj2 (X7_main_port_precedence (R := RT) _ _)) _).
    intros e H. injection H as <-. right. reflexivity.
  - refine (proj1 (proj2 (proj2 (X7_main_port_precedence (R := RT) _ None)))
              "sync_server.py" "9000" [] 9000 _ _); reflexivity.
Defined.

Lemma X8_witness :
  ∃ c s,
    history_of (STORE (fst (do_POST (R := RT) post_a1 "t1" NoFault fresh)))
    = history_entry (PInt 1) "t1" c s :: take 199 (history_of (STORE fresh))
    ∧ c = "X" ∧ s = "".
Proof.
  destruct (X8_identifiers_capped (R := RT) fresh post_a1 "t1" NoFault
              data_a1 doc_a1 0 eq_refl eq_refl eq_refl eq_refl)
    as (c & s & H & _ & _ & _ & Hs & Hc & _).
  exists c, s. split; [exact H|]. split.
  - apply Hc; [reflexivity | simpl; lia].
  - apply Hs. reflexivity.
Defined.

Lemma X9_witness :
  _normalize_store (R := RT) (PDict (snapshot 7 "t0" ∅ [])) "t5"
  = OK (snapshot 7 "t0" ∅ []).
Proof.
  refine (X9_normalize_twice (R := RT) extra_field "t0" "t5" _ _ _);
    [discriminate | reflexivity].
Defined.

Lemma X11_witness :
  let S' := STORE (fst (do_POST (R := RT) post_a1 "t1" (DumpFails OSError)
                          fresh)) in
  S' !! "updated_at" = Some (PStr "t1")
  ∧ ∃ e t, history_of S' = e :: t
           ∧ entry_field "at" e = Some (PStr "t1")
           ∧ head_stamped
               (STORE (run (R := RT)
                         (fst (do_POST (R := RT) post_a1 "t1"
                                 (DumpFails OSError) fresh))
                         session)).
Proof.
  cbv zeta.
  refine (proj2 (X11_updated_at_is_last_upsert (R := RT) fresh session
                   post_a1 "t1" (DumpFails OSError) 0) _ _); reflexivity.
Defined.

End RunMore.
